(** * Provisioning state machine of [ironic.common.states]

    A shallow embedding of the module [ironic/common/states.py]: the state
    name constants, the two logging watchers and the module-level [machine]
    that is built by a fixed sequence of [add_state] / [add_transition]
    calls.  The engine class [fsm.FSM] that these calls drive is embedded in
    [Module fsm]. *)

From stdpp Require Import gmap strings list fin_maps.

Open Scope string_scope.

(** ** The transition engine, [ironic.common.fsm] *)

Module fsm.

(** Exceptions raised by the engine (the error taxonomy), plus the
    exception a watcher may raise, which the engine lets through. *)
Inductive Error : Type :=
| DuplicateStateError
| UnknownStateError
| DuplicateTransitionError
| InvalidStateError
| InvalidEventError
| WatcherError (msg : string).

Inductive Result (A : Type) : Type :=
| Ok (a : A)
| Raise (e : Error).
Arguments Ok {A} a.
Arguments Raise {A} e.

(** One call of [LOG.debug(fmt, *args)]. *)
Inductive LogRecord : Type :=
| Debug (fmt : string) (args : list string).

Abbreviation Log := (list LogRecord).

(** A watcher is a callback receiving [(state, event)].  Its only reach
    is the process log; it may raise. *)
Definition Watcher : Type := string -> string -> Log -> Result unit * Log.

(** The registry entry of one state. *)
Record StateInfo : Type := mkStateInfo {
  st_stable : bool;
  st_target : option string;
  st_on_enter : option Watcher;
  st_on_exit : option Watcher
}.

(** The engine object: the state registry and the transition table,
    keyed by [(source, event)]. *)
Record FSM : Type := mkFSM {
  states : gmap string StateInfo;
  transitions : gmap (string * string) string
}.

(** What a method call can touch: the engine itself ([self]) and the
    process log written by watchers. *)
Record World : Type := mkWorld {
  engine : FSM;
  LOG : Log
}.

(** Methods run in a state-and-exception monad over [World]: a raise
    keeps whatever was mutated before it. *)
Definition M (A : Type) : Type := World -> Result A * World.

Definition ret {A} (a : A) : M A := fun w => (Ok a, w).

Definition raise {A} (e : Error) : M A := fun w => (Raise e, w).

Definition bind {A B} (m : M A) (k : A -> M B) : M B :=
  fun w =>
    match m w with
    | (Ok a, w') => k a w'
    | (Raise e, w') => (Raise e, w')
    end.

Definition get_self : M FSM := fun w => (Ok (engine w), w).

Definition put_self (f : FSM) : M unit :=
  fun w => (Ok tt, {| engine := f; LOG := LOG w |}).

(** Calling an optional hook: nothing happens for [None]. *)
Definition call_watcher (h : option Watcher) (state event : string) : M unit :=
  fun w =>
    match h with
    | None => (Ok tt, w)
    | Some f =>
        let '(r, l) := f state event (LOG w) in
        (r, {| engine := engine w; LOG := l |})
    end.

End fsm.

Export fsm.

#[global] Instance M_ret : MRet M := @ret.
#[global] Instance M_bind : MBind M := fun A B k m => bind m k.

Module FSM.

(** Modelled from the spec: the constructor [fsm.FSM()] of the engine
    class, whose source file [ironic/common/fsm.py] is not at hand; it
    starts with an empty registry and an empty transition table. *)
Definition new : FSM := {| states := ∅; transitions := ∅ |}.

(** Modelled from the spec: method [add_state] of the absent class
    [fsm.FSM] (section 4.1).  It registers [name] and fails with
    [DuplicateStateError] if the name is already registered; the target
    is not validated at registration. *)
Definition add_state (name : string) (stable : bool) (target : option string)
    (on_enter on_exit : option Watcher) : M unit :=
  self ← get_self;
  match states self !! name with
  | Some _ => raise DuplicateStateError
  | None =>
      put_self {| states := <[name := mkStateInfo stable target on_enter on_exit]> (states self);
                  transitions := transitions self |}
  end.

(** Modelled from the spec: method [is_valid_state] of the absent class
    [fsm.FSM] (section 4.1). *)
Definition is_valid_state (self : FSM) (name : string) : bool :=
  bool_decide (is_Some (states self !! name)).

(** Modelled from the spec: method [is_stable] of the absent class
    [fsm.FSM] (section 4.1); fails with [UnknownStateError] on an
    unregistered name. *)
Definition is_stable (self : FSM) (name : string) : Result bool :=
  match states self !! name with
  | Some info => Ok (st_stable info)
  | None => Raise UnknownStateError
  end.

(** Modelled from the spec: method [target_for] of the absent class
    [fsm.FSM] (section 4.1); [None] when no target is recorded. *)
Definition target_for (self : FSM) (name : string) : option string :=
  info ← states self !! name; st_target info.

(** Modelled from the spec: method [add_transition] of the absent class
    [fsm.FSM] (section 4.2).  Both ends must be registered
    ([UnknownStateError]); a pair [(source, event)] already mapped to
    another destination is refused ([DuplicateTransitionError]), and
    re-registering the same destination changes nothing. *)
Definition add_transition (source destination event : string) : M unit :=
  self ← get_self;
  if negb (is_valid_state self source) then raise UnknownStateError
  else if negb (is_valid_state self destination) then raise UnknownStateError
  else
    match transitions self !! (source, event) with
    | Some d =>
        if bool_decide (d = destination) then ret tt
        else raise DuplicateTransitionError
    | None =>
        put_self {| states := states self;
                    transitions := <[(source, event) := destination]> (transitions self) |}
    end.

(** Modelled from the spec: method [is_valid_event] of the absent class
    [fsm.FSM] (section 4.2): true iff a transition exists from [source]
    for [event]. *)
Definition is_valid_event (self : FSM) (source event : string) : bool :=
  bool_decide (is_Some (transitions self !! (source, event))).

(** Modelled from the spec: method [process_event] of the absent class
    [fsm.FSM] (section 4.2), steps 1 to 6 in order. *)
Definition process_event (current_state event : string) : M string :=
  self ← get_self;
  match states self !! current_state with
  | None => raise InvalidStateError
  | Some src =>
      match transitions self !! (current_state, event) with
      | None => raise InvalidEventError
      | Some destination =>
          call_watcher (st_on_exit src) current_state event ;;
          call_watcher (info ← states self !! destination; st_on_enter info)
                       destination event ;;
          ret destination
      end
  end.

(** Modelled from the spec: method [target_state_for] of the absent
    class [fsm.FSM] (section 4.2): an explicit target wins, else the
    registry's target of the destination. *)
Definition target_state_for (self : FSM) (destination : string)
    (explicit_target : option string) : option string :=
  match explicit_target with
  | Some t => Some t
  | None => target_for self destination
  end.

End FSM.

(** ** The module [ironic.common.states] *)

Module states.

(** *** Provisioning states *)

(** Mapping of the target strings PUT to the REST API to internal verbs. *)
Definition VERBS : gmap string string :=
  list_to_map [
    ("active", "deploy");
    ("deleted", "delete");
    ("manage", "manage");
    ("provide", "provide");
    ("inspect", "inspect")
  ].

Definition NOSTATE : option string := None.

Definition MANAGEABLE := "manageable".
Definition AVAILABLE := "available".
Definition ACTIVE := "active".
Definition DEPLOYWAIT := "wait call-back".
Definition DEPLOYING := "deploying".
Definition DEPLOYFAIL := "deploy failed".
Definition DEPLOYDONE := "deploy complete".
Definition DELETING := "deleting".
Definition DELETED := "deleted".
Definition ERROR := "error".
Definition REBUILD := "rebuild".
Definition INSPECTING := "inspecting".
Definition INSPECTFAIL := "inspect failed".

(** *** Power states *)

Definition POWER_ON := "power on".
Definition POWER_OFF := "power off".
Definition REBOOT := "rebooting".

(** *** State machine model *)

(** Used to log when a state is exited. *)
Definition on_exit : Watcher := fun old_state event log =>
  (Ok tt,
   (log ++ [Debug "Exiting old state '%s' in response to event '%s'"
                  [old_state; event]])%list).

(** Used to log when entering a state. *)
Definition on_enter : Watcher := fun new_state event log =>
  (Ok tt,
   (log ++ [Debug "Entering new state '%s' in response to event '%s'"
                  [new_state; event]])%list).

(** The keyword dictionary splatted into every [add_state] call. *)
Definition watchers : gmap string Watcher :=
  <["on_enter" := on_enter]> (<["on_exit" := on_exit]> ∅).

(** [machine.add_state(name, stable=..., target=..., **watchers)]. *)
Definition add_state_kw (name : string) (stable : bool) (target : option string)
    (kw : gmap string Watcher) : M unit :=
  FSM.add_state name stable target (kw !! "on_enter") (kw !! "on_exit").

(** The statements of the module body that touch [machine], in source
    order.  [stable] defaults to false and [target] to none. *)
Definition build_machine : M unit :=
  (* Add stable states *)
  add_state_kw MANAGEABLE true None watchers ;;
  add_state_kw AVAILABLE true None watchers ;;
  add_state_kw ACTIVE true None watchers ;;
  add_state_kw ERROR true None watchers ;;
  (* From MANAGEABLE, a node may be made available *)
  FSM.add_transition MANAGEABLE AVAILABLE "provide" ;;
  (* From AVAILABLE, a node may be made unavailable by managing it *)
  FSM.add_transition AVAILABLE MANAGEABLE "manage" ;;
  (* Add deploy* states *)
  add_state_kw DEPLOYING false (Some ACTIVE) watchers ;;
  add_state_kw DEPLOYWAIT false (Some ACTIVE) watchers ;;
  add_state_kw DEPLOYFAIL false (Some ACTIVE) watchers ;;
  (* Add delete* states *)
  add_state_kw DELETING false (Some AVAILABLE) watchers ;;
  (* From AVAILABLE, a deployment may be started *)
  FSM.add_transition AVAILABLE DEPLOYING "deploy" ;;
  (* Add inspect* states. *)
  add_state_kw INSPECTING false (Some MANAGEABLE) watchers ;;
  add_state_kw INSPECTFAIL false (Some MANAGEABLE) watchers ;;
  (* A deployment may fail *)
  FSM.add_transition DEPLOYING DEPLOYFAIL "fail" ;;
  (* A failed deployment may be retried *)
  FSM.add_transition DEPLOYFAIL DEPLOYING "rebuild" ;;
  FSM.add_transition DEPLOYFAIL DEPLOYING "deploy" ;;
  (* A deployment may also wait on external callbacks *)
  FSM.add_transition DEPLOYING DEPLOYWAIT "wait" ;;
  FSM.add_transition DEPLOYWAIT DEPLOYING "resume" ;;
  (* A deployment waiting on callback may time out *)
  FSM.add_transition DEPLOYWAIT DEPLOYFAIL "fail" ;;
  (* A deployment may complete *)
  FSM.add_transition DEPLOYING ACTIVE "done" ;;
  (* An active instance may be re-deployed *)
  FSM.add_transition ACTIVE DEPLOYING "rebuild" ;;
  (* An active instance may be deleted *)
  FSM.add_transition ACTIVE DELETING "delete" ;;
  (* While a deployment is waiting, it may be deleted *)
  FSM.add_transition DEPLOYWAIT DELETING "delete" ;;
  (* A failed deployment may also be deleted *)
  FSM.add_transition DEPLOYFAIL DELETING "delete" ;;
  (* A delete may complete *)
  FSM.add_transition DELETING AVAILABLE "done" ;;
  (* This state can also transition to error *)
  FSM.add_transition DELETING ERROR "error" ;;
  (* An errored instance can be rebuilt *)
  FSM.add_transition ERROR DEPLOYING "rebuild" ;;
  (* or deleted *)
  FSM.add_transition ERROR DELETING "delete" ;;
  (* Initiate inspection. *)
  FSM.add_transition MANAGEABLE INSPECTING "inspect" ;;
  FSM.add_transition INSPECTING MANAGEABLE "done" ;;
  (* Inspection may fail. *)
  FSM.add_transition INSPECTING INSPECTFAIL "fail" ;;
  (* Move the node to manageable state for any other action. *)
  FSM.add_transition INSPECTFAIL MANAGEABLE "manage" ;;
  (* Reinitiate the inspect after inspectfail. *)
  FSM.add_transition INSPECTFAIL INSPECTING "inspect".

(** Importing the module: [machine = fsm.FSM()], then the body runs. *)
Definition import : Result unit * World :=
  build_machine {| engine := FSM.new; LOG := [] |}.

(** The module-level engine once the import is over. *)
Definition machine : FSM := engine (snd import).

End states.

Import states.

(** ** The reference tables of the specification *)

(** The 23 rows [(source, event, destination)] of the transition table of
    section 4.2, in its order.  The row names deploywait, deployfail and
    inspectfail are the constants [DEPLOYWAIT], [DEPLOYFAIL] and
    [INSPECTFAIL]. *)
Definition spec_table : list (string * string * string) :=
  [ (MANAGEABLE, "provide", AVAILABLE);
    (AVAILABLE, "manage", MANAGEABLE);
    (AVAILABLE, "deploy", DEPLOYING);
    (MANAGEABLE, "inspect", INSPECTING);
    (INSPECTING, "done", MANAGEABLE);
    (INSPECTING, "fail", INSPECTFAIL);
    (INSPECTFAIL, "manage", MANAGEABLE);
    (INSPECTFAIL, "inspect", INSPECTING);
    (DEPLOYING, "fail", DEPLOYFAIL);
    (DEPLOYFAIL, "rebuild", DEPLOYING);
    (DEPLOYFAIL, "deploy", DEPLOYING);
    (DEPLOYING, "wait", DEPLOYWAIT);
    (DEPLOYWAIT, "resume", DEPLOYING);
    (DEPLOYWAIT, "fail", DEPLOYFAIL);
    (DEPLOYING, "done", ACTIVE);
    (ACTIVE, "rebuild", DEPLOYING);
    (ACTIVE, "delete", DELETING);
    (DEPLOYWAIT, "delete", DELETING);
    (DEPLOYFAIL, "delete", DELETING);
    (DELETING, "done", AVAILABLE);
    (DELETING, "error", ERROR);
    (ERROR, "rebuild", DEPLOYING);
    (ERROR, "delete", DELETING) ].

(** A registry row whose hooks are the two logging watchers. *)
Definition entry (stable : bool) (target : option string) : StateInfo :=
  mkStateInfo stable target (Some on_enter) (Some on_exit).

(** The four stable states of section 4.2. *)
Definition stable_states : list string := [MANAGEABLE; AVAILABLE; ACTIVE; ERROR].

(** The registry as the specification describes it: four stable states
    without target, six transitional ones with their target. *)
Definition spec_registry : list (string * StateInfo) :=
  [ (MANAGEABLE, entry true None);
    (AVAILABLE, entry true None);
    (ACTIVE, entry true None);
    (ERROR, entry true None);
    (DEPLOYING, entry false (Some ACTIVE));
    (DEPLOYWAIT, entry false (Some ACTIVE));
    (DEPLOYFAIL, entry false (Some ACTIVE));
    (DELETING, entry false (Some AVAILABLE));
    (INSPECTING, entry false (Some MANAGEABLE));
    (INSPECTFAIL, entry false (Some MANAGEABLE)) ].

(** ** The caller *)

(** The node fields a driver reads and writes. *)
Record Node : Type := mkNode {
  provision_state : string;
  target_provision_state : option string
}.

(** Modelled from the spec: the external actor of section 2 (control
    flow), which is not part of this module: it reads the node's current
    state, asks the engine to process the event and persists the returned
    state and its target only when the engine returned; on a failure it
    applies nothing. *)
Definition fire_event (node : Node) (event : string) (w : World)
    : Result unit * Node * World :=
  match FSM.process_event (provision_state node) event w with
  | (Ok new_state, w') =>
      (Ok tt,
       {| provision_state := new_state;
          target_provision_state := FSM.target_state_for (engine w') new_state None |},
       w')
  | (Raise err, w') => (Raise err, node, w')
  end.

(** ** Views of the module's machine *)

(** The names the module body passes to [add_state], in source order. *)
Definition registered_names : list string :=
  [ MANAGEABLE; AVAILABLE; ACTIVE; ERROR;
    DEPLOYING; DEPLOYWAIT; DEPLOYFAIL;
    DELETING;
    INSPECTING; INSPECTFAIL ].

(** The states in which the conductor itself is at work on the node. *)
Definition in_flight_states : list string := [DEPLOYING; DELETING; INSPECTING].

(** The events a client of the REST API can cause: the internal verbs of
    [VERBS], and [REBUILD], which the module documents as a verb. *)
Definition is_api_verb (event : string) : Prop :=
  (exists target, VERBS !! target = Some event) \/ event = REBUILD.


(** One legal move of the module's machine: some event takes [s] to [d]. *)
Definition step (s d : string) : Prop :=
  exists event, fst (FSM.process_event s event (snd import)) = Ok d.

(** * Facts about the engine, for any registry and table *)

Section engine_facts.

Implicit Types (w : World) (s e d : string) (h : option Watcher).

Lemma bind_unfold {A B} (m : M A) (k : A -> M B) w :
  (m ≫= k) w =
  match m w with
  | (Ok a, w') => k a w'
  | (Raise err, w') => (Raise err, w')
  end.
Proof. reflexivity. Qed.

Lemma call_watcher_engine h s e w :
  engine (snd (call_watcher h s e w)) = engine w.
Proof.
  unfold call_watcher. destruct h as [f|]; [|reflexivity].
  destruct (f s e (LOG w)); reflexivity.
Qed.

Lemma process_event_unknown_state w s e :
  states (engine w) !! s = None ->
  FSM.process_event s e w = (Raise InvalidStateError, w).
Proof.
  intros Hs. unfold FSM.process_event. rewrite bind_unfold. cbn.
  rewrite Hs. reflexivity.
Qed.

Lemma process_event_unknown_event w s e src :
  states (engine w) !! s = Some src ->
  transitions (engine w) !! (s, e) = None ->
  FSM.process_event s e w = (Raise InvalidEventError, w).
Proof.
  intros Hs Ht. unfold FSM.process_event. rewrite bind_unfold. cbn.
  rewrite Hs, Ht. reflexivity.
Qed.

Lemma process_event_registered w s e src d :
  states (engine w) !! s = Some src ->
  transitions (engine w) !! (s, e) = Some d ->
  FSM.process_event s e w =
  (call_watcher (st_on_exit src) s e ;;
   call_watcher (info ← states (engine w) !! d; st_on_enter info) d e ;;
   mret d) w.
Proof.
  intros Hs Ht. unfold FSM.process_event. rewrite bind_unfold. cbn.
  rewrite Hs, Ht. reflexivity.
Qed.

(** [process_event] never writes to the engine, whatever it returns. *)
Lemma process_event_engine w s e :
  engine (snd (FSM.process_event s e w)) = engine w.
Proof.
  destruct (states (engine w) !! s) as [src|] eqn:Hs.
  - destruct (transitions (engine w) !! (s, e)) as [d|] eqn:Ht.
    + rewrite (process_event_registered w s e src d Hs Ht).
      rewrite bind_unfold.
      pose proof (call_watcher_engine (st_on_exit src) s e w) as H1.
      destruct (call_watcher (st_on_exit src) s e w) as [[[]|err] w1]; cbn in H1.
      * rewrite bind_unfold.
        pose proof (call_watcher_engine
                      (info ← states (engine w) !! d; st_on_enter info) d e w1) as H2.
        destruct (call_watcher _ d e w1) as [[[]|err] w2]; cbn in H2 |- *; congruence.
      * cbn. exact H1.
    + rewrite (process_event_unknown_event w s e src Hs Ht). reflexivity.
  - rewrite (process_event_unknown_state w s e Hs). reflexivity.
Qed.

Lemma is_valid_state_spec (m : FSM) s :
  FSM.is_valid_state m s = true <-> is_Some (states m !! s).
Proof. unfold FSM.is_valid_state. rewrite bool_decide_eq_true. reflexivity. Qed.

Lemma is_valid_state_false (m : FSM) s :
  FSM.is_valid_state m s = false <-> states m !! s = None.
Proof.
  unfold FSM.is_valid_state. rewrite bool_decide_eq_false.
  rewrite <- eq_None_not_Some. reflexivity.
Qed.

Lemma is_valid_event_spec (m : FSM) s e :
  FSM.is_valid_event m s e = true <-> is_Some (transitions m !! (s, e)).
Proof. unfold FSM.is_valid_event. rewrite bool_decide_eq_true. reflexivity. Qed.

Lemma is_valid_event_false (m : FSM) s e :
  FSM.is_valid_event m s e = false <-> transitions m !! (s, e) = None.
Proof.
  unfold FSM.is_valid_event. rewrite bool_decide_eq_false.
  rewrite <- eq_None_not_Some. reflexivity.
Qed.

Lemma is_stable_lookup (m : FSM) s (info : StateInfo) :
  states m !! s = Some info -> FSM.is_stable m s = Ok (st_stable info).
Proof. unfold FSM.is_stable. intros ->. reflexivity. Qed.

Lemma target_for_lookup (m : FSM) s (info : StateInfo) :
  states m !! s = Some info -> FSM.target_for m s = st_target info.
Proof. unfold FSM.target_for. intros ->. reflexivity. Qed.

End engine_facts.

(** * Facts about the machine built by the module *)

Section machine_facts.

Implicit Types (s e d : string) (log : Log).

(** The module body runs to its end: no registration call raises. *)
Lemma import_ok : fst import = Ok tt.
Proof. vm_cast_no_check (@eq_refl (Result unit) (Ok tt)). Qed.

(** Building the machine calls no watcher. *)
Lemma import_log : LOG (snd import) = [].
Proof. vm_cast_no_check (@eq_refl Log []). Qed.

Lemma machine_transitions : transitions machine = list_to_map spec_table.
Proof.
  vm_cast_no_check (@eq_refl (gmap (string * string) string) (transitions machine)).
Qed.

Lemma machine_states : states machine = list_to_map spec_registry.
Proof.
  vm_cast_no_check (@eq_refl (gmap string StateInfo) (states machine)).
Qed.

Lemma spec_table_keys : NoDup (spec_table.*1).
Proof. apply (bool_decide_unpack _). vm_cast_no_check I. Qed.

Lemma spec_registry_keys : NoDup (spec_registry.*1).
Proof. apply (bool_decide_unpack _). vm_cast_no_check I. Qed.

Lemma machine_transition_iff s e d :
  transitions machine !! (s, e) = Some d <-> (s, e, d) ∈ spec_table.
Proof.
  rewrite machine_transitions. symmetry.
  apply elem_of_list_to_map, spec_table_keys.
Qed.

Lemma machine_state_iff s (info : StateInfo) :
  states machine !! s = Some info <-> (s, info) ∈ spec_registry.
Proof.
  rewrite machine_states. symmetry.
  apply elem_of_list_to_map, spec_registry_keys.
Qed.

(** Every registered state carries the two logging watchers. *)
Lemma machine_state_entry s (info : StateInfo) :
  states machine !! s = Some info ->
  info = entry (st_stable info) (st_target info).
Proof.
  rewrite machine_state_iff. unfold spec_registry.
  rewrite !elem_of_cons, elem_of_nil.
  intros H. repeat destruct H as [H|H]; try contradiction;
    injection H as -> ->; reflexivity.
Qed.

(** Both ends of a registered transition are registered states. *)
Lemma machine_transition_ends s e d :
  transitions machine !! (s, e) = Some d ->
  is_Some (states machine !! s) /\ is_Some (states machine !! d).
Proof.
  rewrite machine_transition_iff. unfold spec_table.
  rewrite !elem_of_cons, elem_of_nil.
  intros H. repeat destruct H as [H|H]; try contradiction;
    injection H as -> -> ->;
    split; apply is_valid_state_spec;
    vm_cast_no_check (@eq_refl bool true).
Qed.

(** What a legal event does on the machine, whatever the log holds. *)
Lemma machine_process_event s e d log :
  transitions machine !! (s, e) = Some d ->
  FSM.process_event s e {| engine := machine; LOG := log |} =
  (Ok d,
   {| engine := machine;
      LOG := snd (on_enter d e (snd (on_exit s e log))) |}).
Proof.
  intros Ht. destruct (machine_transition_ends s e d Ht) as [[src Hs] [dst Hd]].
  rewrite (process_event_registered {| engine := machine; LOG := log |} s e src d Hs Ht).
  cbn [engine].
  rewrite Hd. cbn.
  rewrite (machine_state_entry s src Hs), (machine_state_entry d dst Hd).
  reflexivity.
Qed.

End machine_facts.

(** * The claims *)

(** Closes an equation between closed, small values by evaluation. *)
Ltac by_evaluation :=
  lazymatch goal with
  | |- @eq ?T _ ?b => vm_cast_no_check (@eq_refl T b)
  end.

(** Membership in a literal list, by walking it. *)
Ltac in_list :=
  repeat first [ apply list_elem_of_here | apply list_elem_of_further ].

(** Refutes membership of a literal in a literal list of strings. *)
Ltac not_in_list H :=
  apply (bool_decide_pack _) in H; vm_compute in H; exact (False_rect _ H).

(** C1: the registered transition relation of [machine] is exactly the
    23-row table of section 4.2.  Every row [(source, event, destination)]
    is a valid event whose processing returns the listed destination;
    every valid event is a row of the table; in particular the event
    deploy from available yields deploying. *)
Theorem C1_transition_table :
  length spec_table = 23 /\
  (forall s e d, (s, e, d) ∈ spec_table ->
     FSM.is_valid_event machine s e = true /\
     forall log,
       fst (FSM.process_event s e {| engine := machine; LOG := log |}) = Ok d) /\
  (forall s e d,
     transitions machine !! (s, e) = Some d <-> (s, e, d) ∈ spec_table) /\
  (forall s e,
     FSM.is_valid_event machine s e = true -> exists d, (s, e, d) ∈ spec_table) /\
  fst (FSM.process_event "available" "deploy" (snd import)) = Ok "deploying".
Proof.
  split; [reflexivity|].
  split.
  { intros s e d Hrow. apply machine_transition_iff in Hrow. split.
    - apply is_valid_event_spec. rewrite Hrow. eauto.
    - intros log. rewrite (machine_process_event s e d log Hrow). reflexivity. }
  split; [exact machine_transition_iff|].
  split.
  { intros s e Hvalid. apply is_valid_event_spec in Hvalid as [d Hd].
    exists d. apply machine_transition_iff, Hd. }
  by_evaluation.
Qed.

Lemma C1_transition_table_witness :
  (AVAILABLE, "deploy", DEPLOYING) ∈ spec_table /\
  FSM.is_valid_event machine AVAILABLE "deploy" = true.
Proof.
  assert (Hrow : (AVAILABLE, "deploy", DEPLOYING) ∈ spec_table)
    by (unfold spec_table; in_list).
  split; [exact Hrow|].
  exact (proj1 (proj1 (proj2 C1_transition_table) _ _ _ Hrow)).
Defined.

(** C2: for every registered transition [(source, destination, event)] of
    [machine], [process_event source event] returns exactly [destination]
    and calls the [on_exit] watcher of [source] once, with
    [(source, event)], and then the [on_enter] watcher of [destination]
    once, with [(destination, event)]: the log grows by exactly these two
    records, in this order, and nothing else changes. *)
Theorem C2_watchers_in_order (s e d : string) (log : Log) :
  transitions machine !! (s, e) = Some d ->
  (exists src dst,
     states machine !! s = Some src /\ st_on_exit src = Some on_exit /\
     states machine !! d = Some dst /\ st_on_enter dst = Some on_enter) /\
  FSM.process_event s e {| engine := machine; LOG := log |} =
  (Ok d,
   {| engine := machine;
      LOG := log ++
             [ Debug "Exiting old state '%s' in response to event '%s'" [s; e];
               Debug "Entering new state '%s' in response to event '%s'" [d; e] ] |}).
Proof.
  intros Ht. split.
  - destruct (machine_transition_ends s e d Ht) as [[src Hs] [dst Hd]].
    exists src, dst.
    rewrite (machine_state_entry s src Hs) at 2.
    rewrite (machine_state_entry d dst Hd) at 2.
    repeat split; assumption.
  - rewrite (machine_process_event s e d log Ht). cbn.
    rewrite <- app_assoc. reflexivity.
Qed.

Lemma C2_watchers_in_order_witness :
  FSM.process_event DEPLOYING "done" {| engine := machine; LOG := [] |} =
  (Ok ACTIVE,
   {| engine := machine;
      LOG := [ Debug "Exiting old state '%s' in response to event '%s'"
                     ["deploying"; "done"];
               Debug "Entering new state '%s' in response to event '%s'"
                     ["active"; "done"] ] |}).
Proof.
  apply (C2_watchers_in_order DEPLOYING "done" ACTIVE []).
  apply machine_transition_iff. unfold spec_table. in_list.
Defined.

(** C3: for a registered state [s], [is_stable s] is true if and only if
    [s] is one of manageable, available, active and error; for every other
    registered state it is false. *)
Theorem C3_stable_states (s : string) :
  FSM.is_valid_state machine s = true ->
  (FSM.is_stable machine s = Ok true <-> s ∈ stable_states) /\
  (s ∉ stable_states -> FSM.is_stable machine s = Ok false).
Proof.
  intros Hvalid. apply is_valid_state_spec in Hvalid as [info Hs].
  unfold FSM.is_stable. rewrite Hs.
  apply machine_state_iff in Hs. unfold spec_registry in Hs.
  rewrite !elem_of_cons, elem_of_nil in Hs.
  repeat destruct Hs as [Hs|Hs]; try contradiction;
    injection Hs as -> ->; cbn [st_stable entry]; unfold stable_states;
    (split; [split|]);
    first [ discriminate
          | reflexivity
          | intros _; reflexivity
          | intros _; in_list; fail
          | intros H; not_in_list H
          | intros H; exfalso; apply H; in_list; fail ].
Qed.

Lemma C3_stable_states_witness :
  (FSM.is_stable machine ERROR = Ok true <-> ERROR ∈ stable_states) /\
  (FSM.is_stable machine DELETING = Ok true <-> DELETING ∈ stable_states).
Proof.
  split.
  - apply (C3_stable_states ERROR). by_evaluation.
  - apply (C3_stable_states DELETING). by_evaluation.
Defined.

(** C4: [target_for] is active for deploying, deploy-wait and
    deploy-failed, available for deleting, manageable for inspecting and
    inspect-failed, and none for each of the four stable states; in
    particular the target of active is none. *)
Theorem C4_targets :
  FSM.target_for machine DEPLOYING = Some ACTIVE /\
  FSM.target_for machine DEPLOYWAIT = Some ACTIVE /\
  FSM.target_for machine DEPLOYFAIL = Some ACTIVE /\
  FSM.target_for machine DELETING = Some AVAILABLE /\
  FSM.target_for machine INSPECTING = Some MANAGEABLE /\
  FSM.target_for machine INSPECTFAIL = Some MANAGEABLE /\
  FSM.target_for machine MANAGEABLE = None /\
  FSM.target_for machine AVAILABLE = None /\
  FSM.target_for machine ACTIVE = None /\
  FSM.target_for machine ERROR = None.
Proof. repeat split; by_evaluation. Qed.

(** C5: for a registered state [s] and an event [e] without registered
    transition from [s], [process_event s e] fails with
    [InvalidEventError] and calls no watcher: the log and the engine are
    as before.  In particular the event manage from active fails so. *)
Theorem C5_invalid_event :
  (forall s e log,
     FSM.is_valid_state machine s = true ->
     FSM.is_valid_event machine s e = false ->
     FSM.process_event s e {| engine := machine; LOG := log |} =
     (Raise InvalidEventError, {| engine := machine; LOG := log |})) /\
  (forall log,
     FSM.process_event "active" "manage" {| engine := machine; LOG := log |} =
     (Raise InvalidEventError, {| engine := machine; LOG := log |})).
Proof.
  assert (Hgen : forall s e log,
     FSM.is_valid_state machine s = true ->
     FSM.is_valid_event machine s e = false ->
     FSM.process_event s e {| engine := machine; LOG := log |} =
     (Raise InvalidEventError, {| engine := machine; LOG := log |})).
  { intros s e log Hs He.
    apply is_valid_state_spec in Hs as [src Hs].
    apply is_valid_event_false in He.
    exact (process_event_unknown_event {| engine := machine; LOG := log |} s e src Hs He). }
  split; [exact Hgen|].
  intros log. apply Hgen; by_evaluation.
Qed.

Lemma C5_invalid_event_witness :
  FSM.process_event AVAILABLE "delete" {| engine := machine; LOG := [] |} =
  (Raise InvalidEventError, {| engine := machine; LOG := [] |}).
Proof.
  apply (proj1 C5_invalid_event AVAILABLE "delete" []); by_evaluation.
Defined.

(** C6: when [current_state] is not registered, [process_event] fails
    with [InvalidStateError] for any event.  On a failure for an unknown
    state or an unknown event nothing is mutated: the engine's tables and
    the log come back as they were, and a caller that applies only
    returned results keeps the node as it was.  The engine's tables are
    never written by [process_event] at all. *)
Theorem C6_failure_mutates_nothing (w : World) (current_state event : string) :
  (FSM.is_valid_state (engine w) current_state = false ->
     FSM.process_event current_state event w = (Raise InvalidStateError, w)) /\
  (FSM.is_valid_state (engine w) current_state = true ->
   FSM.is_valid_event (engine w) current_state event = false ->
     FSM.process_event current_state event w = (Raise InvalidEventError, w)) /\
  engine (snd (FSM.process_event current_state event w)) = engine w /\
  (forall node err,
     provision_state node = current_state ->
     fst (FSM.process_event current_state event w) = Raise err ->
     fst (fire_event node event w) = (Raise err, node) /\
     engine (snd (fire_event node event w)) = engine w).
Proof.
  split; [|split; [|split]].
  - intros Hs. apply is_valid_state_false in Hs.
    exact (process_event_unknown_state w current_state event Hs).
  - intros Hs He. apply is_valid_state_spec in Hs as [src Hs].
    apply is_valid_event_false in He.
    exact (process_event_unknown_event w current_state event src Hs He).
  - apply process_event_engine.
  - intros node err Hnode Hfail. unfold fire_event. rewrite Hnode.
    pose proof (process_event_engine w current_state event) as Heng.
    destruct (FSM.process_event current_state event w) as [[new_state|err'] w'];
      cbn in Hfail, Heng |- *.
    + discriminate Hfail.
    + injection Hfail as ->. split; [reflexivity|exact Heng].
Qed.

Lemma C6_failure_mutates_nothing_witness :
  FSM.process_event "enroll" "manage" (snd import) =
    (Raise InvalidStateError, snd import) /\
  FSM.process_event ACTIVE "manage" (snd import) =
    (Raise InvalidEventError, snd import) /\
  fst (fire_event (mkNode ACTIVE None) "manage" (snd import)) =
    (Raise InvalidEventError, mkNode ACTIVE None).
Proof.
  split; [|split].
  - apply (proj1 (C6_failure_mutates_nothing (snd import) "enroll" "manage")).
    by_evaluation.
  - apply (proj1 (proj2 (C6_failure_mutates_nothing (snd import) ACTIVE "manage")));
      by_evaluation.
  - apply (proj2 (proj2 (proj2
             (C6_failure_mutates_nothing (snd import) ACTIVE "manage")))).
    + reflexivity.
    + by_evaluation.
Defined.

(** C7: once [add_transition s d e] has succeeded, the same call again
    does not raise and changes nothing, while [add_transition s d' e] for
    another destination [d'] raises [DuplicateTransitionError] and changes
    nothing.  A destination is a registered state; for a name that was
    never registered the call raises all the same, by the check of its
    ends. *)
Theorem C7_add_transition_again (w w1 : World) (s d e : string) :
  FSM.add_transition s d e w = (Ok tt, w1) ->
  FSM.add_transition s d e w1 = (Ok tt, w1) /\
  (forall d',
     d' <> d ->
     FSM.is_valid_state (engine w1) d' = true ->
     FSM.add_transition s d' e w1 = (Raise DuplicateTransitionError, w1)) /\
  (forall d',
     d' <> d ->
     exists err, FSM.add_transition s d' e w1 = (Raise err, w1)).
Proof.
  intros Hfirst.
  assert (FSM.is_valid_state (engine w) s = true /\
          FSM.is_valid_state (engine w) d = true /\
          states (engine w1) = states (engine w) /\
          transitions (engine w1) !! (s, e) = Some d) as (Hs & Hd & Hst & Htr).
  { unfold FSM.add_transition in Hfirst. rewrite bind_unfold in Hfirst.
    cbn [get_self] in Hfirst.
    destruct (FSM.is_valid_state (engine w) s); [|discriminate Hfirst].
    destruct (FSM.is_valid_state (engine w) d); [|discriminate Hfirst].
    cbn [negb] in Hfirst.
    destruct (transitions (engine w) !! (s, e)) as [d0|] eqn:Ht.
    - case_bool_decide as Heq; [|discriminate Hfirst].
      injection Hfirst as <-. subst d0. repeat split. exact Ht.
    - injection Hfirst as <-. cbn. repeat split.
      apply lookup_insert_eq. }
  assert (Hvalid : forall x,
            FSM.is_valid_state (engine w1) x = FSM.is_valid_state (engine w) x).
  { intros x. unfold FSM.is_valid_state. rewrite Hst. reflexivity. }
  split.
  - unfold FSM.add_transition. rewrite bind_unfold. cbn [get_self].
    rewrite !Hvalid, Hs, Hd. cbn [negb]. rewrite Htr.
    rewrite bool_decide_eq_true_2 by reflexivity. reflexivity.
  - assert (Hdup : forall d', d' <> d ->
              FSM.is_valid_state (engine w1) d' = true ->
              FSM.add_transition s d' e w1 = (Raise DuplicateTransitionError, w1)).
    { intros d' Hne Hd'.
      unfold FSM.add_transition. rewrite bind_unfold. cbn [get_self].
      rewrite Hvalid, Hs, Hd'. cbn [negb]. rewrite Htr.
      rewrite bool_decide_eq_false_2 by congruence. reflexivity. }
    split; [exact Hdup|].
    intros d' Hne.
    destruct (FSM.is_valid_state (engine w1) d') eqn:Hd'.
    + exists DuplicateTransitionError. exact (Hdup d' Hne Hd').
    + exists UnknownStateError.
      unfold FSM.add_transition. rewrite bind_unfold. cbn [get_self].
      rewrite Hvalid, Hs, Hd'. reflexivity.
Qed.

Lemma C7_add_transition_again_witness :
  let w1 := snd (FSM.add_transition ACTIVE MANAGEABLE "manage" (snd import)) in
  FSM.add_transition ACTIVE MANAGEABLE "manage" w1 = (Ok tt, w1) /\
  FSM.add_transition ACTIVE AVAILABLE "manage" w1 =
    (Raise DuplicateTransitionError, w1).
Proof.
  intros w1.
  assert (Hok : fst (FSM.add_transition ACTIVE MANAGEABLE "manage" (snd import))
                = Ok tt) by by_evaluation.
  pose proof (eq_trans
                (surjective_pairing
                   (FSM.add_transition ACTIVE MANAGEABLE "manage" (snd import)))
                (f_equal (fun r => (r, w1)) Hok)) as Hfirst.
  pose proof (C7_add_transition_again (snd import) w1 ACTIVE MANAGEABLE "manage"
                Hfirst) as Hagain.
  split; [exact (proj1 Hagain)|].
  apply (proj1 (proj2 Hagain)); [discriminate|by_evaluation].
Defined.

(** C8: in the built machine the mapping from [(source, event)] to the
    destination is a function.  No registration call of the module was
    refused as a duplicate, no pair occurs twice among the registered
    transitions, two registered transitions with the same source and
    event have the same destination, and the destination returned by
    [process_event] depends on nothing but the pair. *)
Theorem C8_transitions_functional :
  fst import = Ok tt /\
  NoDup ((map_to_list (transitions machine)).*1) /\
  (forall s e d1 d2,
     (s, e, d1) ∈ map_to_list (transitions machine) ->
     (s, e, d2) ∈ map_to_list (transitions machine) ->
     d1 = d2) /\
  (forall s e d1 d2,
     (s, e, d1) ∈ spec_table -> (s, e, d2) ∈ spec_table -> d1 = d2) /\
  (forall s e log1 log2 d1 d2,
     fst (FSM.process_event s e {| engine := machine; LOG := log1 |}) = Ok d1 ->
     fst (FSM.process_event s e {| engine := machine; LOG := log2 |}) = Ok d2 ->
     d1 = d2).
Proof.
  split; [exact import_ok|].
  split; [apply NoDup_fst_map_to_list|].
  split.
  { intros s e d1 d2 H1 H2.
    apply elem_of_map_to_list in H1, H2. congruence. }
  split.
  { intros s e d1 d2 H1 H2.
    apply machine_transition_iff in H1, H2. congruence. }
  intros s e log1 log2 d1 d2.
  destruct (transitions machine !! (s, e)) as [d|] eqn:Ht.
  - rewrite (machine_process_event s e d log1 Ht).
    rewrite (machine_process_event s e d log2 Ht).
    cbn [fst]. intros H1 H2. congruence.
  - destruct (states machine !! s) as [src|] eqn:Hs.
    + rewrite (process_event_unknown_event {| engine := machine; LOG := log1 |}
                 s e src Hs Ht).
      cbn [fst]. intros H1 _. discriminate H1.
    + rewrite (process_event_unknown_state {| engine := machine; LOG := log1 |}
                 s e Hs).
      cbn [fst]. intros H1 _. discriminate H1.
Qed.

Lemma C8_transitions_functional_witness :
  (DEPLOYFAIL, "deploy", DEPLOYING) ∈ spec_table /\
  fst (FSM.process_event DEPLOYFAIL "deploy" (snd import)) = Ok DEPLOYING /\
  DEPLOYING = DEPLOYING.
Proof.
  assert (Hrow : (DEPLOYFAIL, "deploy", DEPLOYING) ∈ spec_table)
    by (unfold spec_table; in_list).
  assert (Hrun : fst (FSM.process_event DEPLOYFAIL "deploy"
                        {| engine := machine; LOG := [] |}) = Ok DEPLOYING)
    by by_evaluation.
  split; [exact Hrow|]. split; [by_evaluation|].
  exact (proj2 (proj2 (proj2 (proj2 C8_transitions_functional)))
           DEPLOYFAIL "deploy" [] [] DEPLOYING DEPLOYING Hrun Hrun).
Defined.

(** C9: every registered state that is not stable has a target, and that
    target is itself a registered stable state (active for deploying,
    deploy-wait and deploy-failed, available for deleting, manageable for
    inspecting and inspect-failed); so the target of a registered state,
    when there is one, is never a transitional state. *)
Theorem C9_targets_are_stable (s : string) :
  FSM.is_valid_state machine s = true ->
  (FSM.is_stable machine s = Ok false ->
     exists t,
       FSM.target_for machine s = Some t /\
       FSM.is_valid_state machine t = true /\
       FSM.is_stable machine t = Ok true) /\
  (forall t,
     FSM.target_for machine s = Some t ->
     FSM.is_valid_state machine t = true /\
     FSM.is_stable machine t = Ok true /\
     ((s = DEPLOYING \/ s = DEPLOYWAIT \/ s = DEPLOYFAIL) /\ t = ACTIVE \/
      s = DELETING /\ t = AVAILABLE \/
      (s = INSPECTING \/ s = INSPECTFAIL) /\ t = MANAGEABLE)).
Proof.
  intros Hvalid. apply is_valid_state_spec in Hvalid as [info Hs].
  rewrite (is_stable_lookup machine s info Hs).
  rewrite (target_for_lookup machine s info Hs).
  apply machine_state_iff in Hs. unfold spec_registry in Hs.
  rewrite !elem_of_cons, elem_of_nil in Hs.
  repeat destruct Hs as [Hs|Hs]; try contradiction;
    injection Hs as -> ->; cbn [st_stable st_target entry];
    (split;
     [ first [ intros Hfalse; discriminate Hfalse
             | intros _; eexists; split; [reflexivity|]; split; by_evaluation ]
     | intros t Ht;
       first [ discriminate Ht
             | injection Ht as <-;
               split; [by_evaluation|]; split; [by_evaluation|]; tauto ] ]).
Qed.

Lemma C9_targets_are_stable_witness :
  (exists t,
     FSM.target_for machine DEPLOYWAIT = Some t /\
     FSM.is_valid_state machine t = true /\
     FSM.is_stable machine t = Ok true) /\
  FSM.is_stable machine MANAGEABLE = Ok true.
Proof.
  split.
  - apply (proj1 (C9_targets_are_stable DEPLOYWAIT ltac:(by_evaluation))).
    by_evaluation.
  - apply (proj2 (C9_targets_are_stable INSPECTING ltac:(by_evaluation)) MANAGEABLE).
    by_evaluation.
Defined.

(** C10: the constants [DEPLOYDONE] ('deploy complete') and [DELETED]
    ('deleted') are defined but never registered: [is_valid_state] is
    false for both, and [process_event] with either as current state
    fails with [InvalidStateError] for every event, calling no watcher. *)
Theorem C10_unregistered_constants :
  DEPLOYDONE = "deploy complete" /\
  DELETED = "deleted" /\
  FSM.is_valid_state machine DEPLOYDONE = false /\
  FSM.is_valid_state machine DELETED = false /\
  (forall event log,
     FSM.process_event DEPLOYDONE event {| engine := machine; LOG := log |} =
     (Raise InvalidStateError, {| engine := machine; LOG := log |})) /\
  (forall event log,
     FSM.process_event DELETED event {| engine := machine; LOG := log |} =
     (Raise InvalidStateError, {| engine := machine; LOG := log |})).
Proof.
  assert (Hdone : FSM.is_valid_state machine DEPLOYDONE = false) by by_evaluation.
  assert (Hdeleted : FSM.is_valid_state machine DELETED = false) by by_evaluation.
  split; [reflexivity|]. split; [reflexivity|].
  split; [exact Hdone|]. split; [exact Hdeleted|].
  split; intros event log.
  - apply is_valid_state_false in Hdone.
    exact (process_event_unknown_state {| engine := machine; LOG := log |}
             DEPLOYDONE event Hdone).
  - apply is_valid_state_false in Hdeleted.
    exact (process_event_unknown_state {| engine := machine; LOG := log |}
             DELETED event Hdeleted).
Qed.


(** * Further properties of the module's machine *)

(** Evaluation that is checked on the spot, for goals with a small value. *)
Ltac by_checked_evaluation := vm_compute; reflexivity.

(** Splits membership in a literal list into one case per element. *)
Ltac list_cases H :=
  rewrite !elem_of_cons, elem_of_nil in H;
  repeat destruct H as [H|H]; try contradiction.

Lemma machine_valid_state_iff (s : string) :
  FSM.is_valid_state machine s = true <-> s ∈ registered_names.
Proof.
  split.
  - intros Hvalid. apply is_valid_state_spec in Hvalid as [info Hs].
    apply machine_state_iff in Hs. unfold spec_registry in Hs.
    list_cases Hs; injection Hs as -> _; unfold registered_names; in_list.
  - intros Hs. unfold registered_names in Hs.
    list_cases Hs; subst s; by_evaluation.
Qed.

Lemma machine_process_event_inv (s e d : string) (log : Log) :
  fst (FSM.process_event s e {| engine := machine; LOG := log |}) = Ok d ->
  transitions machine !! (s, e) = Some d.
Proof.
  destruct (transitions machine !! (s, e)) as [d0|] eqn:Ht.
  - rewrite (machine_process_event s e d0 log Ht). cbn [fst].
    intros H. injection H as ->. reflexivity.
  - destruct (states machine !! s) as [src|] eqn:Hs.
    + rewrite (process_event_unknown_event {| engine := machine; LOG := log |}
                 s e src Hs Ht).
      cbn [fst]. intros H. discriminate H.
    + rewrite (process_event_unknown_state {| engine := machine; LOG := log |}
                 s e Hs).
      cbn [fst]. intros H. discriminate H.
Qed.

Lemma verbs_cases (target event : string) :
  VERBS !! target = Some event ->
  event ∈ ["deploy"; "delete"; "manage"; "provide"; "inspect"].
Proof.
  unfold VERBS. intros H. apply elem_of_list_to_map_2 in H.
  list_cases H; injection H as _ ->; in_list.
Qed.

(** X1: the registered states of the machine are exactly the ten names the
    module passes to [add_state].  The other names the module defines, the
    verb [REBUILD] and the three power states, are not provisioning states
    of the machine. *)
Theorem X1_registered_states :
  (forall s, FSM.is_valid_state machine s = true <-> s ∈ registered_names) /\
  NoDup registered_names /\
  length registered_names = 10 /\
  Forall (fun s => FSM.is_valid_state machine s = false)
         [REBUILD; POWER_ON; POWER_OFF; REBOOT].
Proof.
  split; [exact machine_valid_state_iff|].
  split; [apply (bool_decide_unpack _); vm_cast_no_check I|].
  split; [reflexivity|].
  repeat constructor; by_evaluation.
Qed.

(** X2: no registered state is a dead end.  From every registered state
    some event is valid, and processing it returns a registered state. *)
Theorem X2_no_dead_end (s : string) (log : Log) :
  FSM.is_valid_state machine s = true ->
  exists event d,
    FSM.is_valid_event machine s event = true /\
    fst (FSM.process_event s event {| engine := machine; LOG := log |}) = Ok d /\
    FSM.is_valid_state machine d = true.
Proof.
  intros Hs. apply machine_valid_state_iff in Hs. unfold registered_names in Hs.
  assert (Hrow : exists event d, (s, event, d) ∈ spec_table).
  { list_cases Hs; subst s;
      first [ exists "provide", AVAILABLE; unfold spec_table; in_list; fail
            | exists "manage", MANAGEABLE; unfold spec_table; in_list; fail
            | exists "delete", DELETING; unfold spec_table; in_list; fail
            | exists "done", ACTIVE; unfold spec_table; in_list; fail
            | exists "done", AVAILABLE; unfold spec_table; in_list; fail
            | exists "done", MANAGEABLE; unfold spec_table; in_list; fail ]. }
  destruct Hrow as (event & d & Hrow). apply machine_transition_iff in Hrow.
  exists event, d. split; [|split].
  - apply is_valid_event_spec. rewrite Hrow. eauto.
  - rewrite (machine_process_event s event d log Hrow). reflexivity.
  - apply is_valid_state_spec. exact (proj2 (machine_transition_ends s event d Hrow)).
Qed.

Lemma X2_no_dead_end_witness :
  exists event d,
    FSM.is_valid_event machine ERROR event = true /\
    fst (FSM.process_event ERROR event {| engine := machine; LOG := [] |}) = Ok d /\
    FSM.is_valid_state machine d = true.
Proof.
  apply (X2_no_dead_end ERROR []). by_evaluation.
Defined.

Lemma import_world : snd import = {| engine := machine; LOG := [] |}.
Proof. vm_cast_no_check (@eq_refl World (snd import)). Qed.

Lemma step_iff (s d : string) :
  step s d <-> exists event, transitions machine !! (s, event) = Some d.
Proof.
  unfold step. rewrite import_world. split; intros [event H]; exists event.
  - exact (machine_process_event_inv s event d [] H).
  - rewrite (machine_process_event s event d [] H). reflexivity.
Qed.

Lemma step_row (s e d : string) : (s, e, d) ∈ spec_table -> step s d.
Proof.
  intros Hrow. apply step_iff. exists e. apply machine_transition_iff, Hrow.
Qed.

(** Extends a path by the move [e] to [d]. *)
Ltac hop e d :=
  apply (rtc_l step _ d);
  [ apply (step_row _ e d); unfold spec_table; in_list; fail | ].

Lemma reach_from_manageable (s : string) :
  s ∈ registered_names -> rtc step MANAGEABLE s.
Proof.
  intros Hs. unfold registered_names in Hs. list_cases Hs; subst s.
  - apply rtc_refl.
  - hop "provide" AVAILABLE. apply rtc_refl.
  - hop "provide" AVAILABLE. hop "deploy" DEPLOYING. hop "done" ACTIVE.
    apply rtc_refl.
  - hop "provide" AVAILABLE. hop "deploy" DEPLOYING. hop "done" ACTIVE.
    hop "delete" DELETING. hop "error" ERROR. apply rtc_refl.
  - hop "provide" AVAILABLE. hop "deploy" DEPLOYING. apply rtc_refl.
  - hop "provide" AVAILABLE. hop "deploy" DEPLOYING. hop "wait" DEPLOYWAIT.
    apply rtc_refl.
  - hop "provide" AVAILABLE. hop "deploy" DEPLOYING. hop "fail" DEPLOYFAIL.
    apply rtc_refl.
  - hop "provide" AVAILABLE. hop "deploy" DEPLOYING. hop "done" ACTIVE.
    hop "delete" DELETING. apply rtc_refl.
  - hop "inspect" INSPECTING. apply rtc_refl.
  - hop "inspect" INSPECTING. hop "fail" INSPECTFAIL. apply rtc_refl.
Qed.

Lemma reach_manageable (s : string) :
  s ∈ registered_names -> rtc step s MANAGEABLE.
Proof.
  intros Hs. unfold registered_names in Hs. list_cases Hs; subst s.
  - apply rtc_refl.
  - hop "manage" MANAGEABLE. apply rtc_refl.
  - hop "delete" DELETING. hop "done" AVAILABLE. hop "manage" MANAGEABLE.
    apply rtc_refl.
  - hop "delete" DELETING. hop "done" AVAILABLE. hop "manage" MANAGEABLE.
    apply rtc_refl.
  - hop "done" ACTIVE. hop "delete" DELETING. hop "done" AVAILABLE.
    hop "manage" MANAGEABLE. apply rtc_refl.
  - hop "delete" DELETING. hop "done" AVAILABLE. hop "manage" MANAGEABLE.
    apply rtc_refl.
  - hop "delete" DELETING. hop "done" AVAILABLE. hop "manage" MANAGEABLE.
    apply rtc_refl.
  - hop "done" AVAILABLE. hop "manage" MANAGEABLE. apply rtc_refl.
  - hop "done" MANAGEABLE. apply rtc_refl.
  - hop "manage" MANAGEABLE. apply rtc_refl.
Qed.

(** X3: the machine is strongly connected and closed.  Any registered
    state can be brought to any other registered state by a finite
    sequence of events, and a move never leaves the registered states. *)
Theorem X3_strongly_connected :
  (forall s d,
     FSM.is_valid_state machine s = true ->
     FSM.is_valid_state machine d = true ->
     rtc step s d) /\
  (forall s d,
     step s d ->
     FSM.is_valid_state machine s = true /\ FSM.is_valid_state machine d = true).
Proof.
  split.
  - intros s d Hs Hd. apply machine_valid_state_iff in Hs, Hd.
    exact (rtc_trans s MANAGEABLE d
             (reach_manageable s Hs) (reach_from_manageable d Hd)).
  - intros s d Hstep. apply step_iff in Hstep as [event Ht].
    destruct (machine_transition_ends s event d Ht) as [Hs Hd].
    split; apply is_valid_state_spec; assumption.
Qed.

Lemma X3_strongly_connected_witness : rtc step ERROR INSPECTFAIL.
Proof.
  apply (proj1 X3_strongly_connected ERROR INSPECTFAIL); by_evaluation.
Defined.

(** Turns a registered transition into its row of the table, one case per
    row. *)
Ltac table_cases Ht :=
  apply machine_transition_iff in Ht; unfold spec_table in Ht; list_cases Ht.

Lemma api_verb_cases (event : string) :
  is_api_verb event ->
  event ∈ ["deploy"; "delete"; "manage"; "provide"; "inspect"; "rebuild"].
Proof.
  intros [[target Hverb] | ->].
  - apply verbs_cases in Hverb. list_cases Hverb; subst event; in_list.
  - unfold REBUILD. in_list.
Qed.

Lemma machine_invalid_event (s e : string) (log : Log) :
  FSM.is_valid_state machine s = true ->
  FSM.is_valid_event machine s e = false ->
  FSM.process_event s e {| engine := machine; LOG := log |} =
  (Raise InvalidEventError, {| engine := machine; LOG := log |}).
Proof.
  intros Hs He. apply is_valid_state_spec in Hs as [src Hs].
  apply is_valid_event_false in He.
  exact (process_event_unknown_event {| engine := machine; LOG := log |} s e src Hs He).
Qed.





(** X5: completion lands on the recorded target.  Whenever the event done
    is accepted in a state, the state it returns is the target of the
    state it left, and it is stable. *)
Theorem X5_done_reaches_target (s d : string) (log : Log) :
  fst (FSM.process_event s "done" {| engine := machine; LOG := log |}) = Ok d ->
  FSM.target_for machine s = Some d /\ FSM.is_stable machine d = Ok true.
Proof.
  intros H. apply machine_process_event_inv in H.
  remember "done" as e eqn:He.
  table_cases H; injection H as -> -> ->;
    first [ discriminate He | split; by_checked_evaluation ].
Qed.

Lemma X5_done_reaches_target_witness :
  FSM.target_for machine DELETING = Some AVAILABLE /\
  FSM.is_stable machine AVAILABLE = Ok true.
Proof.
  apply (X5_done_reaches_target DELETING AVAILABLE []). by_evaluation.
Defined.

(** X6: a move between two states that are not stable keeps the target,
    unless the event is delete: waiting, resuming, failing and retrying
    never change what the node is heading for. *)
Theorem X6_target_kept (s e d : string) (log : Log) :
  fst (FSM.process_event s e {| engine := machine; LOG := log |}) = Ok d ->
  FSM.is_stable machine s = Ok false ->
  FSM.is_stable machine d = Ok false ->
  e <> "delete" ->
  FSM.target_for machine d = FSM.target_for machine s.
Proof.
  intros H. apply machine_process_event_inv in H.
  table_cases H; injection H as -> -> ->; intros Hs Hd He;
    first [ exfalso; apply He; reflexivity
          | exfalso; vm_compute in Hs; discriminate Hs
          | exfalso; vm_compute in Hd; discriminate Hd
          | by_checked_evaluation ].
Qed.

Lemma X6_target_kept_witness :
  FSM.target_for machine DEPLOYFAIL = FSM.target_for machine DEPLOYWAIT.
Proof.
  apply (X6_target_kept DEPLOYWAIT "fail" DEPLOYFAIL []);
    [by_evaluation | by_evaluation | by_evaluation | discriminate].
Defined.

(** X7: a node enters a failed state exactly on the event fail, and the
    error state exactly on the event error. *)
Theorem X7_failure_states (s e d : string) (log : Log) :
  fst (FSM.process_event s e {| engine := machine; LOG := log |}) = Ok d ->
  (d ∈ [DEPLOYFAIL; INSPECTFAIL] <-> e = "fail") /\
  (d = ERROR <-> e = "error").
Proof.
  intros H. apply machine_process_event_inv in H.
  table_cases H; injection H as -> -> ->;
    (split; split; intros H';
     first [ reflexivity
           | in_list; fail
           | discriminate H'
           | not_in_list H' ]).
Qed.

Lemma X7_failure_states_witness :
  (INSPECTFAIL ∈ [DEPLOYFAIL; INSPECTFAIL] <-> "fail" = "fail") /\
  (INSPECTFAIL = ERROR <-> "fail" = "error").
Proof.
  apply (X7_failure_states INSPECTING "fail" INSPECTFAIL []). by_evaluation.
Defined.

(** X8: on the module's machine [process_event] has exactly three
    outcomes.  It returns a registered state and logs the two watcher
    records, or it fails with [InvalidStateError] or [InvalidEventError]
    and logs nothing.  The logging watchers never make a legal move
    fail, and the engine is the same afterwards in all three cases. *)
Theorem X8_three_outcomes (s e : string) (log : Log) :
  (exists d,
     FSM.is_valid_state machine d = true /\
     FSM.process_event s e {| engine := machine; LOG := log |} =
     (Ok d,
      {| engine := machine;
         LOG := log ++
                [ Debug "Exiting old state '%s' in response to event '%s'" [s; e];
                  Debug "Entering new state '%s' in response to event '%s'" [d; e] ] |})) \/
  (FSM.is_valid_state machine s = false /\
   FSM.process_event s e {| engine := machine; LOG := log |} =
   (Raise InvalidStateError, {| engine := machine; LOG := log |})) \/
  (FSM.is_valid_state machine s = true /\
   FSM.is_valid_event machine s e = false /\
   FSM.process_event s e {| engine := machine; LOG := log |} =
   (Raise InvalidEventError, {| engine := machine; LOG := log |})).
Proof.
  destruct (transitions machine !! (s, e)) as [d|] eqn:Ht.
  - left. exists d. split.
    + apply is_valid_state_spec. exact (proj2 (machine_transition_ends s e d Ht)).
    + rewrite (machine_process_event s e d log Ht).
      unfold on_enter, on_exit. cbn [snd]. rewrite <- app_assoc. reflexivity.
  - right. destruct (FSM.is_valid_state machine s) eqn:Hs.
    + right. apply is_valid_event_false in Ht.
      split; [reflexivity|]. split; [exact Ht|].
      exact (machine_invalid_event s e log Hs Ht).
    + left. split; [reflexivity|].
      apply is_valid_state_false in Hs.
      exact (process_event_unknown_state {| engine := machine; LOG := log |} s e Hs).
Qed.

(** X9: a stable state accepts nothing but verbs of the API: every event
    that is valid in manageable, available, active or error is an internal
    verb of [VERBS] or [REBUILD].  The events done, fail, wait, resume and
    error are never valid there. *)
Theorem X9_stable_states_take_api_verbs (s e : string) :
  FSM.is_stable machine s = Ok true ->
  FSM.is_valid_event machine s e = true ->
  is_api_verb e /\ e ∉ ["done"; "fail"; "wait"; "resume"; "error"].
Proof.
  intros Hstable Hvalid. apply is_valid_event_spec in Hvalid as [d Ht].
  table_cases Ht; injection Ht as -> -> ->;
    first [ exfalso; vm_compute in Hstable; discriminate Hstable
          | split;
            [ first [ left; exists "active"; by_checked_evaluation
                    | left; exists "deleted"; by_checked_evaluation
                    | left; exists "manage"; by_checked_evaluation
                    | left; exists "provide"; by_checked_evaluation
                    | left; exists "inspect"; by_checked_evaluation
                    | right; reflexivity ]
            | let H := fresh "H" in intros H; not_in_list H ] ].
Qed.

Lemma X9_stable_states_take_api_verbs_witness :
  is_api_verb "rebuild" /\ "rebuild" ∉ ["done"; "fail"; "wait"; "resume"; "error"].
Proof.
  apply (X9_stable_states_take_api_verbs ERROR "rebuild"); by_evaluation.
Defined.

(** X10: while the conductor is at work on a node, in deploying, deleting
    or inspecting, no verb of the API is accepted: processing it fails
    with [InvalidEventError] and logs nothing. *)
Theorem X10_in_flight_refuses_api_verbs (s e : string) (log : Log) :
  s ∈ in_flight_states ->
  is_api_verb e ->
  FSM.is_valid_event machine s e = false /\
  FSM.process_event s e {| engine := machine; LOG := log |} =
  (Raise InvalidEventError, {| engine := machine; LOG := log |}).
Proof.
  intros Hs He. apply api_verb_cases in He.
  assert (Hvalid : FSM.is_valid_state machine s = true /\
                   FSM.is_valid_event machine s e = false).
  { unfold in_flight_states in Hs.
    list_cases Hs; subst s; list_cases He; subst e; split; by_evaluation. }
  destruct Hvalid as [Hvs Hve]. split; [exact Hve|].
  exact (machine_invalid_event s e log Hvs Hve).
Qed.

Lemma X10_in_flight_refuses_api_verbs_witness :
  FSM.is_valid_event machine DEPLOYING "delete" = false /\
  FSM.process_event DEPLOYING "delete" {| engine := machine; LOG := [] |} =
  (Raise InvalidEventError, {| engine := machine; LOG := [] |}).
Proof.
  apply (X10_in_flight_refuses_api_verbs DEPLOYING "delete" []).
  - unfold in_flight_states. in_list.
  - left. exists "deleted". reflexivity.
Defined.

(** Runs a row of the table: the goal is the outcome of a legal move. *)
Ltac run_row log :=
  lazymatch goal with
  | |- fst (FSM.process_event ?s ?e _) = Ok ?d =>
      let Ht := fresh "Ht" in
      assert (Ht : transitions machine !! (s, e) = Some d)
        by (apply machine_transition_iff; unfold spec_table; in_list; fail);
      rewrite (machine_process_event s e d log Ht); reflexivity
  end.

(** X11: work in flight can always end, either way.  Each of deploying,
    deleting and inspecting accepts the event done, which returns its
    target, and accepts a failure event, fail or error, which returns a
    failed state or the error state. *)
Theorem X11_in_flight_exits (s : string) (log : Log) :
  s ∈ in_flight_states ->
  (exists d,
     fst (FSM.process_event s "done" {| engine := machine; LOG := log |}) = Ok d /\
     FSM.target_for machine s = Some d) /\
  (exists e d,
     e ∈ ["fail"; "error"] /\
     d ∈ [DEPLOYFAIL; INSPECTFAIL; ERROR] /\
     fst (FSM.process_event s e {| engine := machine; LOG := log |}) = Ok d).
Proof.
  intros Hs. unfold in_flight_states in Hs. list_cases Hs; subst s.
  - split.
    + exists ACTIVE. split; [run_row log | by_evaluation].
    + exists "fail", DEPLOYFAIL. split; [in_list|]. split; [in_list | run_row log].
  - split.
    + exists AVAILABLE. split; [run_row log | by_evaluation].
    + exists "error", ERROR. split; [in_list|]. split; [in_list | run_row log].
  - split.
    + exists MANAGEABLE. split; [run_row log | by_evaluation].
    + exists "fail", INSPECTFAIL. split; [in_list|]. split; [in_list | run_row log].
Qed.

Lemma X11_in_flight_exits_witness :
  exists d,
    fst (FSM.process_event DELETING "done" {| engine := machine; LOG := [] |}) = Ok d /\
    FSM.target_for machine DELETING = Some d.
Proof.
  apply (X11_in_flight_exits DELETING []). unfold in_flight_states. in_list.
Defined.
